(** * JBest chat server: the presence and message-broadcast coordinator

    A shallow embedding of the socket handlers of [server/server.js]
    (the [io.on('connection', ...)] block) together with the two pieces of
    process-wide state they share, [activeUsers] (a JavaScript [Map]) and
    [messages] (a JavaScript array).

    - A JavaScript [Map] iterates in insertion order and [Map.prototype.set]
      on a key that is present keeps the key's position; the embedding is an
      insertion-ordered association list with exactly that behaviour.
    - [new Date().toISOString()] and [Date.now()] read the wall clock; the
      readings are carried by the inbound event, one per call site.
    - [socket.emit], [socket.broadcast.emit] and [io.emit] are recorded as
      emissions (target, payload); who receives an emission is decided by
      the transport from the set of sockets connected at that moment, which
      is a parameter of [recipients].
    - [sendMessage] is an [async] handler: when the persistence model
      [Message] is configured it suspends at [await dbMessage.save()] and
      its [io.emit] runs when the save settles, with other events possibly
      in between.  The suspended continuations are part of the state, and
      the settling of one of them is an event of its own.
    - Inbound payloads have the shapes of the protocol: a join carries a
      string [username], a sendMessage a string [message], typing a
      boolean.  Logging ([console.log], [console.error]) is left out.
    - Of the rest of the file, the routes [GET /] and [GET /api/messages]
      read the same state and are embedded as functions of it, the outcome
      of the database query being a parameter; [ALLOWED_ORIGINS] is a
      function of the environment variable. *)

From Stdlib Require Import List String Ascii ZArith Lia Bool Arith
  Permutation.
Import ListNotations.
Open Scope string_scope.
Open Scope list_scope.

(** ** JavaScript [Map] with string keys *)

Module JsMap.

Section Ops.
Context {V : Type}.

Definition t := list (string * V).

Definition empty : t := [].

Fixpoint get (k : string) (m : t) : option V :=
  match m with
  | [] => None
  | (k', v) :: m' => if String.eqb k' k then Some v else get k m'
  end.

Definition has (k : string) (m : t) : bool :=
  match get k m with Some _ => true | None => false end.

(** [set] on a present key replaces the value where it stands; a new key
    goes to the end of the iteration order. *)
Fixpoint set (k : string) (v : V) (m : t) : t :=
  match m with
  | [] => [(k, v)]
  | (k', v') :: m' =>
      if String.eqb k' k then (k', v) :: m' else (k', v') :: set k v m'
  end.

Definition delete (k : string) (m : t) : t :=
  filter (fun kv => negb (String.eqb (fst kv) k)) m.

Definition keys (m : t) : list string := List.map fst m.

Definition values (m : t) : list V := List.map snd m.

Definition size (m : t) : nat := List.length m.
End Ops.

Arguments t : clear implicits.

End JsMap.

(** ** JavaScript arrays, as far as the handlers use them *)

Section JsArray.
Context {A : Type}.

(** [arr.push(x)] *)
Definition push (x : A) (arr : list A) : list A := arr ++ [x].

(** [arr.shift()]: drops the first element, nothing on an empty array. *)
Definition shift (arr : list A) : list A := tl arr.

(** [arr.slice(start)]: a negative [start] counts from the end and is
    clamped at the front, a positive one is clamped at the length. *)
Definition slice (start : Z) (arr : list A) : list A :=
  let len := Z.of_nat (List.length arr) in
  let k := if (start <? 0)%Z then Z.max (len + start) 0 else Z.min start len in
  skipn (Z.to_nat k) arr.
End JsArray.

(** ** Data *)

(** The object stored in [activeUsers]: [{ id, username, joinedAt }]. *)
Record user := mkUser {
  u_id : string;
  u_username : string;
  u_joinedAt : string
}.

(** The object stored in [messages]: [{ id, username, message, timestamp }]. *)
Record chat_message := mkMessage {
  m_id : Z;
  m_username : string;
  m_message : string;
  m_timestamp : string
}.

(** Outbound events with their payloads. *)
Inductive payload : Type :=
| usersList (users : list user)
| messageHistory (history : list chat_message)
| userJoined (username message timestamp : string)
| newMessage (m : chat_message)
| userTyping (username : string) (isTyping : bool)
| userLeft (username message timestamp : string).

(** The three ways the handlers emit. *)
Inductive target : Type :=
| socket_emit (sid : string)
| socket_broadcast_emit (sid : string)
| io_emit.

Record emission := mkEmission {
  em_target : target;
  em_payload : payload
}.

(** The sockets an emission reaches, out of the ones connected. *)
Definition reaches (t : target) (c : string) : bool :=
  match t with
  | socket_emit sid => String.eqb c sid
  | socket_broadcast_emit sid => negb (String.eqb c sid)
  | io_emit => true
  end.

Definition recipients (connected : list string) (t : target) : list string :=
  filter (reaches t) connected.

Definition delivered (connected : list string) (e : emission) (c : string)
  : bool :=
  existsb (String.eqb c) (recipients connected (em_target e)).

(** The emissions of a batch that a given socket receives, in order. *)
Definition inbox (connected : list string) (c : string) (out : list emission)
  : list emission :=
  filter (fun e => delivered connected e c) out.

(** ** State *)

Record state := mkState {
  activeUsers : JsMap.t user;
  messages : list chat_message;
  (* [sendMessage] calls suspended at [await dbMessage.save()], each with
     the [message] it will emit *)
  saving : list chat_message
}.

Definition init : state :=
  {| activeUsers := JsMap.empty; messages := []; saving := [] |}.

(** ** Inbound events *)

(** Inbound events, one constructor per handler, plus the settling of a
    pending save. *)
Inductive event : Type :=
| join (sid username now1 now2 : string)
| sendMessage (sid body : string) (now_ms : Z) (now : string)
| typing (sid : string) (isTyping : bool)
| disconnect (sid now : string)
| saveSettled (k : nat).

(** ** Handlers *)

Section Handlers.
(** Whether [Message] is a model ([MONGODB_URI] set) or [null]. *)
Variable Message : bool.

(** [socket.on('join', ...)]; [now1] and [now2] are the two clock
    readings, for [joinedAt] and for the notification. *)
Definition on_join (sid username now1 now2 : string) (s : state)
  : state * list emission :=
  let users :=
    JsMap.set sid
      {| u_id := sid; u_username := username; u_joinedAt := now1 |}
      (activeUsers s) in
  ({| activeUsers := users; messages := messages s; saving := saving s |},
   [ {| em_target := socket_broadcast_emit sid;
        em_payload :=
          userJoined username (username ++ " joined the chat")%string now2 |};
     {| em_target := socket_emit sid;
        em_payload := usersList (JsMap.values users) |};
     {| em_target := socket_emit sid;
        em_payload := messageHistory (slice (-20) (messages s)) |} ]).

(** The in-memory part of [sendMessage]: push, then one [shift] when the
    array has grown past 100. *)
Definition store (m : chat_message) (log : list chat_message)
  : list chat_message :=
  let log' := push m log in
  if Nat.ltb 100 (List.length log') then shift log' else log'.

(** [socket.on('sendMessage', ...)]; [now_ms] is [Date.now()], [now] the
    ISO reading. *)
Definition on_sendMessage (sid body : string) (now_ms : Z) (now : string)
           (s : state) : state * list emission :=
  match JsMap.get sid (activeUsers s) with
  | None => (s, [])
  | Some user =>
      let message :=
        {| m_id := now_ms; m_username := u_username user;
           m_message := body; m_timestamp := now |} in
      let log := store message (messages s) in
      if Message then
        ({| activeUsers := activeUsers s; messages := log;
            saving := saving s ++ [message] |}, [])
      else
        ({| activeUsers := activeUsers s; messages := log;
            saving := saving s |},
         [ {| em_target := io_emit; em_payload := newMessage message |} ])
  end.

(** The rest of a suspended [sendMessage] once its save has settled,
    fulfilled or rejected alike: [io.emit('newMessage', message)]. *)
Definition on_saveSettled (k : nat) (s : state) : state * list emission :=
  match nth_error (saving s) k with
  | None => (s, [])
  | Some message =>
      ({| activeUsers := activeUsers s; messages := messages s;
          saving := firstn k (saving s) ++ skipn (S k) (saving s) |},
       [ {| em_target := io_emit; em_payload := newMessage message |} ])
  end.

(** [socket.on('typing', ...)] *)
Definition on_typing (sid : string) (isTyping : bool) (s : state)
  : state * list emission :=
  match JsMap.get sid (activeUsers s) with
  | None => (s, [])
  | Some user =>
      (s, [ {| em_target := socket_broadcast_emit sid;
               em_payload := userTyping (u_username user) isTyping |} ])
  end.

(** [socket.on('disconnect', ...)] *)
Definition on_disconnect (sid now : string) (s : state)
  : state * list emission :=
  match JsMap.get sid (activeUsers s) with
  | None => (s, [])
  | Some user =>
      ({| activeUsers := JsMap.delete sid (activeUsers s);
          messages := messages s; saving := saving s |},
       [ {| em_target := socket_broadcast_emit sid;
            em_payload :=
              userLeft (u_username user)
                       (u_username user ++ " left the chat")%string now |} ])
  end.

Definition handle (s : state) (e : event) : state * list emission :=
  match e with
  | join sid username now1 now2 => on_join sid username now1 now2 s
  | sendMessage sid body now_ms now => on_sendMessage sid body now_ms now s
  | typing sid isTyping => on_typing sid isTyping s
  | disconnect sid now => on_disconnect sid now s
  | saveSettled k => on_saveSettled k s
  end.

(** The single serialization point: events are handled one after the
    other. *)
Fixpoint run (s : state) (evs : list event) : state :=
  match evs with
  | [] => s
  | e :: evs' => run (fst (handle s e)) evs'
  end.
End Handlers.

(** ** Observers used by the statements *)

(** The last [n] elements of a list, oldest first. *)
Definition lastn {A : Type} (n : nat) (l : list A) : list A :=
  skipn (List.length l - n) l.

(** The log after appending [ms] one by one to [log]. *)
Definition store_all (ms log : list chat_message) : list chat_message :=
  fold_left (fun acc m => store m acc) ms log.

Definition is_join (e : event) : bool :=
  match e with join _ _ _ _ => true | _ => false end.

Definition count_joins (evs : list event) : nat :=
  List.length (filter is_join evs).

(** Every key of the registry is stored once, and the [id] of an entry is
    the key it is stored under. *)
Definition keyed (m : JsMap.t user) : Prop :=
  NoDup (JsMap.keys m) /\ forall k u, In (k, u) m -> u_id u = k.

Section Observers.
Variable Message : bool.

(** Whether the event is a disconnect that finds its socket registered. *)
Definition live_disconnect (s : state) (e : event) : bool :=
  match e with
  | disconnect sid _ => JsMap.has sid (activeUsers s)
  | _ => false
  end.

(** Whether the event is a join of a socket that is not registered. *)
Definition fresh_join (s : state) (e : event) : bool :=
  match e with
  | join sid _ _ _ => negb (JsMap.has sid (activeUsers s))
  | _ => false
  end.

(** How many events of a run satisfy [f] in the state they arrive in. *)
Fixpoint count_in_run (f : state -> event -> bool) (s : state)
         (evs : list event) : nat :=
  match evs with
  | [] => 0
  | e :: evs' =>
      (if f s e then 1 else 0) + count_in_run f (fst (handle Message s e)) evs'
  end.

Definition reachable (s : state) : Prop :=
  exists evs, s = run Message init evs.
End Observers.

(** The arguments of one [sendMessage] event: the text and the two clock
    readings. *)
Definition send_args : Type := string * Z * string.

Definition send_event (sid : string) (a : send_args) : event :=
  let '(body, now_ms, now) := a in sendMessage sid body now_ms now.

(** The object the handler builds for such an event sent by [sender]. *)
Definition message_of (sender : user) (a : send_args) : chat_message :=
  let '(body, now_ms, now) := a in
  {| m_id := now_ms; m_username := u_username sender;
     m_message := body; m_timestamp := now |}.

(** Sample data for the closed instances below. *)
Definition alice_joined : state :=
  fst (on_join "s1" "alice" "2024-01-01T00:00:00.000Z"
               "2024-01-01T00:00:00.001Z" init).

Definition numbered (n : nat) : send_args :=
  ("hi", Z.of_nat n, "2024-01-01T00:00:00.000Z").

(** ** The rest of the server: configuration and the HTTP routes *)

(** [str.split(',')]: the pieces between the commas, at least one. *)
Fixpoint split_comma (str : string) : list string :=
  match str with
  | EmptyString => [EmptyString]
  | String c rest =>
      if Ascii.eqb c ","%char then EmptyString :: split_comma rest
      else match split_comma rest with
           | piece :: pieces => String c piece :: pieces
           | [] => [String c EmptyString]
           end
  end.

(** [ALLOWED_ORIGINS]: the variable split at its commas when it is set and
    not empty (an empty string is falsy), the three local origins
    otherwise. [None] is an unset variable. *)
Definition ALLOWED_ORIGINS (env : option string) : list string :=
  match env with
  | Some (String c rest) => split_comma (String c rest)
  | Some EmptyString | None =>
      ["http://localhost:3000"; "http://localhost:5173";
       "http://localhost:5174"]
  end.

(** Whether a string holds a comma. *)
Fixpoint has_comma (str : string) : bool :=
  match str with
  | EmptyString => false
  | String c rest => Ascii.eqb c ","%char || has_comma rest
  end.

(** The body of the answer of [GET /]. *)
Record status_summary := mkSummary {
  st_message : string;
  st_status : string;
  st_users : nat;
  st_totalMessages : nat;
  st_environment : string;
  st_version : string
}.

(** [app.get('/', ...)] *)
Definition get_root (NODE_ENV : string) (s : state) : status_summary :=
  {| st_message := "JBest Chat Server is running!";
     st_status := "online";
     st_users := JsMap.size (activeUsers s);
     st_totalMessages := List.length (messages s);
     st_environment := NODE_ENV;
     st_version := "1.0.0" |}.

(** The answers of [GET /api/messages]; [D] is the type of the documents
    of the database. *)
Inductive api_response (D : Type) : Type :=
| json_log (recent : list chat_message)
| json_docs (recent : list D)
| status_500.

Arguments json_log {D} recent.
Arguments json_docs {D} recent.
Arguments status_500 {D}.

(** [app.get('/api/messages', ...)]; [found] is the outcome of the query
    [Message.find().sort({ timestamp: -1 }).limit(50).exec()], [None] when
    it is rejected. *)
Definition get_api_messages {D : Type} (Message : bool)
           (found : option (list D)) (s : state) : api_response D :=
  if Message then
    match found with
    | Some recentMessages => json_docs (rev recentMessages)
    | None => status_500
    end
  else json_log (slice (-50) (messages s)).

(** ** More observers of a run *)

Definition is_newMessage (em : emission) : bool :=
  match em_payload em with newMessage _ => true | _ => false end.

(** Whether the event is a sendMessage that finds its socket registered. *)
Definition accepted_send (s : state) (e : event) : bool :=
  match e with
  | sendMessage sid _ _ _ => JsMap.has sid (activeUsers s)
  | _ => false
  end.

(** The message an event adds to the log in the state it arrives in: the
    one a sendMessage of a registered socket builds, under the username the
    registry holds for that socket then. *)
Definition sent_message (s : state) (e : event) : option chat_message :=
  match e with
  | sendMessage sid body now_ms now =>
      match JsMap.get sid (activeUsers s) with
      | Some sender => Some (message_of sender (body, now_ms, now))
      | None => None
      end
  | _ => None
  end.

(** The messages the events of a run add to the log, in order. *)
Fixpoint appended (Message : bool) (s : state) (evs : list event)
  : list chat_message :=
  match evs with
  | [] => []
  | e :: evs' =>
      match sent_message s e with
      | Some m => m :: appended Message (fst (handle Message s e)) evs'
      | None => appended Message (fst (handle Message s e)) evs'
      end
  end.

(** The messages carried by the newMessage emissions of a batch. *)
Fixpoint broadcast_messages (out : list emission) : list chat_message :=
  match out with
  | [] => []
  | em :: out' =>
      match em_payload em with
      | newMessage m => m :: broadcast_messages out'
      | _ => broadcast_messages out'
      end
  end.

(** Everything a run emits, in order. *)
Fixpoint emitted (Message : bool) (s : state) (evs : list event)
  : list emission :=
  match evs with
  | [] => []
  | e :: evs' =>
      snd (handle Message s e) ++ emitted Message (fst (handle Message s e)) evs'
  end.

(** * Facts about the JavaScript containers *)

Module JsMapFacts.
Import JsMap.

Section Facts.
Context {V : Type}.
Implicit Types (m : JsMap.t V) (k : string) (v : V).

Lemma get_set_eq k v m : get k (set k v m) = Some v.
Proof.
  induction m as [|[k' v'] m IH]; simpl.
  - now rewrite String.eqb_refl.
  - destruct (String.eqb k' k) eqn:E; simpl; rewrite E; auto.
Qed.

Lemma get_set_ne k k' v m : k <> k' -> get k' (set k v m) = get k' m.
Proof.
  intros Hne. induction m as [|[k0 v0] m IH]; simpl.
  - destruct (String.eqb k k') eqn:E; auto.
    apply String.eqb_eq in E. contradiction.
  - destruct (String.eqb k0 k) eqn:E; simpl.
    + apply String.eqb_eq in E. subst k0.
      destruct (String.eqb k k') eqn:E'; auto.
      apply String.eqb_eq in E'. contradiction.
    + now rewrite IH.
Qed.

Lemma keys_set_present k v m :
  get k m <> None -> keys (set k v m) = keys m.
Proof.
  unfold keys. induction m as [|[k' v'] m IH]; simpl; intros H.
  - congruence.
  - destruct (String.eqb k' k) eqn:E; simpl; auto.
    now rewrite IH.
Qed.

Lemma keys_set_absent k v m :
  get k m = None -> keys (set k v m) = keys m ++ [k].
Proof.
  unfold keys. induction m as [|[k' v'] m IH]; simpl; intros H; auto.
  destruct (String.eqb k' k) eqn:E; simpl; [discriminate|].
  now rewrite IH.
Qed.

Lemma get_None_keys k m : get k m = None <-> ~ In k (keys m).
Proof.
  unfold keys. induction m as [|[k' v'] m IH]; simpl.
  - tauto.
  - destruct (String.eqb k' k) eqn:E.
    + apply String.eqb_eq in E. split; [discriminate | tauto].
    + apply String.eqb_neq in E. tauto.
Qed.

Lemma size_keys m : size m = List.length (keys m).
Proof. unfold size, keys. now rewrite length_map. Qed.

Lemma size_set_present k v m : get k m <> None -> size (set k v m) = size m.
Proof. intros H. now rewrite !size_keys, keys_set_present. Qed.

Lemma size_set_absent k v m : get k m = None -> size (set k v m) = S (size m).
Proof.
  intros H. rewrite !size_keys, keys_set_absent by assumption.
  rewrite length_app. simpl. lia.
Qed.

Lemma NoDup_keys_set k v m : NoDup (keys m) -> NoDup (keys (set k v m)).
Proof.
  intros H. destruct (get k m) eqn:E.
  - rewrite keys_set_present; congruence.
  - rewrite keys_set_absent by assumption.
    apply NoDup_app; auto.
    + constructor; [tauto | constructor].
    + intros x Hx [Hk|[]]. subst x. now apply get_None_keys in E.
Qed.

Lemma In_set k v m k' v' :
  In (k', v') (set k v m) -> (k' = k /\ v' = v) \/ In (k', v') m.
Proof.
  induction m as [|[k0 v0] m IH]; simpl.
  - intros [H|[]]. inversion H. auto.
  - destruct (String.eqb k0 k) eqn:E; simpl.
    + apply String.eqb_eq in E. subst k0. intros [H|H]; auto.
      inversion H. auto.
    + intros [H|H]; auto. destruct (IH H); auto.
Qed.

Lemma get_Some_In k v m : get k m = Some v -> In (k, v) m.
Proof.
  induction m as [|[k0 v0] m IH]; simpl; [discriminate|].
  destruct (String.eqb k0 k) eqn:E; auto.
  apply String.eqb_eq in E. subst k0. intros H. inversion H. auto.
Qed.

Lemma In_get_Some k v m : NoDup (keys m) -> In (k, v) m -> get k m = Some v.
Proof.
  unfold keys. induction m as [|[k0 v0] m IH]; simpl; [tauto|].
  intros Hnd [H|H].
  - inversion H. subst. now rewrite String.eqb_refl.
  - inversion Hnd as [|? ? Hnotin Hnd']. subst.
    destruct (String.eqb k0 k) eqn:E; auto.
    apply String.eqb_eq in E. subst k0. exfalso. apply Hnotin.
    change k with (fst (k, v)). now apply in_map.
Qed.

Lemma get_delete_eq k m : get k (delete k m) = None.
Proof.
  unfold delete. induction m as [|[k0 v0] m IH]; simpl; auto.
  destruct (String.eqb k0 k) eqn:E; simpl; auto. now rewrite E.
Qed.

Lemma get_delete_ne k k' m : k <> k' -> get k' (delete k m) = get k' m.
Proof.
  intros Hne. unfold delete. induction m as [|[k0 v0] m IH]; simpl; auto.
  destruct (String.eqb k0 k) eqn:E; simpl.
  - apply String.eqb_eq in E. subst k0.
    destruct (String.eqb k k') eqn:E'; auto.
    apply String.eqb_eq in E'. contradiction.
  - now rewrite IH.
Qed.

Lemma delete_absent k m : get k m = None -> delete k m = m.
Proof.
  unfold delete. induction m as [|[k0 v0] m IH]; simpl; auto.
  destruct (String.eqb k0 k) eqn:E; simpl; [discriminate|].
  intros H. now rewrite IH.
Qed.

Lemma In_delete k m x : In x (delete k m) -> In x m.
Proof. unfold delete. intros H. now apply filter_In in H. Qed.

Lemma keys_delete k m :
  keys (delete k m) = filter (fun k' => negb (String.eqb k' k)) (keys m).
Proof.
  unfold keys, delete. induction m as [|[k0 v0] m IH]; simpl; auto.
  destruct (String.eqb k0 k); simpl; now rewrite IH.
Qed.

Lemma NoDup_keys_delete k m : NoDup (keys m) -> NoDup (keys (delete k m)).
Proof. intros H. rewrite keys_delete. now apply NoDup_filter. Qed.

Lemma size_delete_present k m :
  NoDup (keys m) -> get k m <> None -> S (size (delete k m)) = size m.
Proof.
  unfold size, keys. induction m as [|[k0 v0] m IH]; simpl; [congruence|].
  intros Hnd H. inversion Hnd as [|? ? Hnotin Hnd']. subst.
  destruct (String.eqb k0 k) eqn:E; simpl.
  - apply String.eqb_eq in E. subst k0.
    fold (delete k m). rewrite delete_absent; auto.
    now apply get_None_keys.
  - f_equal. apply IH; auto.
Qed.

Lemma has_true k m : has k m = true <-> get k m <> None.
Proof. unfold has. destruct (get k m); split; congruence. Qed.

Lemma has_false k m : has k m = false <-> get k m = None.
Proof. unfold has. destruct (get k m); split; congruence. Qed.
End Facts.
End JsMapFacts.

Section ArrayFacts.
Context {A : Type}.
Implicit Types (l r : list A) (n : nat).

Lemma length_lastn n l : List.length (lastn n l) = Nat.min n (List.length l).
Proof. unfold lastn. rewrite length_skipn. lia. Qed.

Lemma lastn_all n l : List.length l <= n -> lastn n l = l.
Proof.
  intros H. unfold lastn.
  replace (List.length l - n) with 0 by lia. reflexivity.
Qed.

Lemma lastn_app_lastn n l r : lastn n (lastn n l ++ r) = lastn n (l ++ r).
Proof.
  destruct (Nat.le_gt_cases (List.length l) n) as [H|H].
  - now rewrite (lastn_all n l).
  - unfold lastn. rewrite !length_app, length_skipn.
    replace (List.length l - (List.length l - n) + List.length r - n)
      with (List.length r) by lia.
    replace (List.length l + List.length r - n)
      with (List.length r + (List.length l - n)) by lia.
    rewrite <- skipn_skipn. f_equal.
    rewrite skipn_app.
    replace (List.length l - n - List.length l) with 0 by lia.
    reflexivity.
Qed.

Lemma slice_negative n l : 0 < n -> slice (- Z.of_nat n) l = lastn n l.
Proof.
  intros Hn. unfold slice, lastn.
  destruct (Z.ltb_spec (- Z.of_nat n) 0); [|lia].
  f_equal. lia.
Qed.

Lemma nth_error_lastn n l i :
  nth_error (lastn n l) i = nth_error l (List.length l - n + i).
Proof. unfold lastn. apply nth_error_skipn. Qed.
End ArrayFacts.

Section LogFacts.
Implicit Types (m : chat_message) (log ms : list chat_message).

Lemma store_cases m log :
  store m log = log ++ [m] \/ store m log = tl (log ++ [m]).
Proof. unfold store, push, shift. destruct (Nat.ltb _ _); auto. Qed.

Lemma store_lastn m log :
  List.length log <= 100 -> store m log = lastn 100 (log ++ [m]).
Proof.
  intros H. unfold store, push, shift, lastn.
  rewrite length_app. cbn [List.length].
  destruct (Nat.ltb_spec 100 (List.length log + 1)).
  - replace (List.length log + 1 - 100) with 1 by lia.
    destruct (log ++ [m]); reflexivity.
  - replace (List.length log + 1 - 100) with 0 by lia. reflexivity.
Qed.

Lemma length_store m log :
  List.length log <= 100 -> List.length (store m log) <= 100.
Proof.
  intros H. rewrite store_lastn by assumption. rewrite length_lastn. lia.
Qed.

Lemma store_all_lastn ms log :
  List.length log <= 100 -> store_all ms log = lastn 100 (log ++ ms).
Proof.
  unfold store_all. revert log. induction ms as [|m ms IH]; intros log H.
  - simpl. rewrite app_nil_r. symmetry. now apply lastn_all.
  - simpl. rewrite IH by now apply length_store.
    rewrite store_lastn by assumption.
    rewrite lastn_app_lastn, <- app_assoc. reflexivity.
Qed.

(** A [store] drops at most the first element of the array and adds at
    the end; it drops nothing while the array is short of 100. *)
Lemma store_skipn m log :
  exists j, j <= 1 /\
            store m log = skipn j (log ++ [m]) /\
            (List.length log < 100 -> j = 0).
Proof.
  unfold store, push, shift.
  destruct (Nat.ltb_spec 100 (List.length (log ++ [m]))) as [H|H].
  - exists 1. split; [lia|]. split.
    + destruct (log ++ [m]); reflexivity.
    + rewrite length_app in H. simpl in H. lia.
  - exists 0. split; [lia|]. split; [reflexivity | auto].
Qed.
End LogFacts.

(** * Facts about the handlers *)

Section HandlerFacts.
Variable Message : bool.
Implicit Types (s : state) (e : event) (evs : list event).

Lemma on_sendMessage_registered sid body now_ms now s user :
  JsMap.get sid (activeUsers s) = Some user ->
  let message := mkMessage now_ms (u_username user) body now in
  activeUsers (fst (on_sendMessage Message sid body now_ms now s))
    = activeUsers s /\
  messages (fst (on_sendMessage Message sid body now_ms now s))
    = store message (messages s).
Proof.
  intros H. unfold on_sendMessage. rewrite H.
  destruct Message; simpl; auto.
Qed.

(** Only an accepted [sendMessage] touches the log, and it does so by one
    [store]. *)
Lemma handle_messages s e :
  messages (fst (handle Message s e)) = messages s \/
  exists m, messages (fst (handle Message s e)) = store m (messages s).
Proof.
  destruct e as [sid u n1 n2|sid body now_ms now|sid b|sid now|k]; simpl.
  - auto.
  - destruct (JsMap.get sid (activeUsers s)) as [user|] eqn:E.
    + right. eexists.
      apply (on_sendMessage_registered sid body now_ms now s user E).
    + left. unfold on_sendMessage. now rewrite E.
  - left. unfold on_typing. now destruct (JsMap.get _ _).
  - left. unfold on_disconnect. now destruct (JsMap.get _ _).
  - left. unfold on_saveSettled. now destruct (nth_error _ _).
Qed.

Lemma handle_log_bounded s e :
  List.length (messages s) <= 100 ->
  List.length (messages (fst (handle Message s e))) <= 100.
Proof.
  intros H. destruct (handle_messages s e) as [E|[m E]]; rewrite E; auto.
  now apply length_store.
Qed.

Lemma run_log_bounded s evs :
  List.length (messages s) <= 100 ->
  List.length (messages (run Message s evs)) <= 100.
Proof.
  revert s. induction evs as [|e evs IH]; intros s H; simpl; auto.
  apply IH. now apply handle_log_bounded.
Qed.

(** What an event does to the log: one [store] of the message it sends,
    nothing when it sends none. *)
Lemma handle_sent s e :
  messages (fst (handle Message s e))
  = match sent_message s e with
    | Some m => store m (messages s)
    | None => messages s
    end.
Proof.
  destruct e as [sid u n1 n2|sid body now_ms now|sid b|sid now|k]; simpl.
  - reflexivity.
  - destruct (JsMap.get sid (activeUsers s)) as [sender|] eqn:E.
    + apply (on_sendMessage_registered sid body now_ms now s sender E).
    + unfold on_sendMessage. now rewrite E.
  - unfold on_typing. now destruct (JsMap.get _ _).
  - unfold on_disconnect. now destruct (JsMap.get _ _).
  - unfold on_saveSettled. now destruct (nth_error _ _).
Qed.

(** Along a run the log is the log at the start followed by the messages
    sent since, in order and as they were built, short of [k] entries at
    the front, at most one for each message sent and none while the log
    stays within 100. *)
Lemma run_messages_exact s evs :
  exists k,
    k <= List.length (appended Message s evs) /\
    messages (run Message s evs)
    = skipn k (messages s ++ appended Message s evs) /\
    (List.length (messages s) + List.length (appended Message s evs) <= 100 ->
     k = 0).
Proof.
  revert s. induction evs as [|e evs IH]; intros s; cbn [run appended].
  - exists 0. split; [simpl; lia|]. split; auto.
    now rewrite app_nil_r.
  - destruct (IH (fst (handle Message s e))) as (k & Hk & E & Hz).
    rewrite E, handle_sent in *.
    destruct (sent_message s e) as [m|].
    + destruct (store_skipn m (messages s)) as (j & Hj & Ej & Hjz).
      rewrite Ej in *.
      exists (k + j). split; [simpl; lia|]. split.
      * replace (messages s ++ m :: appended Message (fst (handle Message s e)) evs)
          with ((messages s ++ [m])
                ++ appended Message (fst (handle Message s e)) evs)
          by now rewrite <- app_assoc.
        rewrite <- skipn_skipn.
        rewrite (skipn_app j (messages s ++ [m])).
        replace (j - List.length (messages s ++ [m])) with 0
          by (rewrite length_app; simpl; lia).
        reflexivity.
      * simpl. intros Hle.
        assert (j = 0) by (apply Hjz; lia). subst j.
        rewrite Nat.add_0_r. apply Hz.
        simpl. rewrite length_app. simpl. lia.
    + exists k. auto.
Qed.
End HandlerFacts.

Section RegistryFacts.
Variable Message : bool.
Implicit Types (s : state) (e : event) (evs : list event).

Lemma handle_activeUsers s e :
  match e with
  | join sid username now1 _ =>
      activeUsers (fst (handle Message s e))
        = JsMap.set sid (mkUser sid username now1) (activeUsers s)
  | disconnect sid _ =>
      activeUsers (fst (handle Message s e))
        = JsMap.delete sid (activeUsers s)
  | _ => activeUsers (fst (handle Message s e)) = activeUsers s
  end.
Proof.
  destruct e as [sid u n1 n2|sid body now_ms now|sid b|sid now|k]; simpl.
  - reflexivity.
  - unfold on_sendMessage.
    destruct (JsMap.get _ _); [destruct Message|]; reflexivity.
  - unfold on_typing. now destruct (JsMap.get _ _).
  - unfold on_disconnect.
    destruct (JsMap.get _ _) eqn:E; simpl; auto.
    symmetry. now apply JsMapFacts.delete_absent.
  - unfold on_saveSettled. now destruct (nth_error _ _).
Qed.

Lemma handle_keyed s e :
  keyed (activeUsers s) -> keyed (activeUsers (fst (handle Message s e))).
Proof.
  intros [Hnd Hid]. pose proof (handle_activeUsers s e) as H.
  destruct e; rewrite H; try (split; assumption).
  - split.
    + now apply JsMapFacts.NoDup_keys_set.
    + intros k u Hin. apply JsMapFacts.In_set in Hin.
      destruct Hin as [[-> ->]|Hin]; auto.
  - split.
    + now apply JsMapFacts.NoDup_keys_delete.
    + intros k u Hin. apply JsMapFacts.In_delete in Hin. auto.
Qed.

Lemma run_keyed s evs :
  keyed (activeUsers s) -> keyed (activeUsers (run Message s evs)).
Proof.
  revert s. induction evs as [|e evs IH]; intros s H; simpl; auto.
  apply IH. now apply handle_keyed.
Qed.

Lemma keyed_init : keyed (activeUsers init).
Proof. split; simpl; [constructor | tauto]. Qed.

Lemma reachable_keyed s : reachable Message s -> keyed (activeUsers s).
Proof. intros [evs ->]. apply run_keyed, keyed_init. Qed.

(** One event moves the size of the registry by the fresh join or the live
    disconnect it is, and by nothing else. *)
Lemma handle_size s e :
  NoDup (JsMap.keys (activeUsers s)) ->
  JsMap.size (activeUsers (fst (handle Message s e)))
    + (if live_disconnect s e then 1 else 0)
  = JsMap.size (activeUsers s) + (if fresh_join s e then 1 else 0).
Proof.
  intros Hnd. pose proof (handle_activeUsers s e) as H.
  destruct e as [sid u n1 n2|sid body now_ms now|sid b|sid now|k];
    rewrite H; simpl; try lia.
  - destruct (JsMap.has sid (activeUsers s)) eqn:E; simpl.
    + apply JsMapFacts.has_true in E.
      rewrite JsMapFacts.size_set_present by assumption. lia.
    + apply JsMapFacts.has_false in E.
      rewrite JsMapFacts.size_set_absent by assumption. lia.
  - destruct (JsMap.has sid (activeUsers s)) eqn:E.
    + apply JsMapFacts.has_true in E.
      rewrite <- (JsMapFacts.size_delete_present sid (activeUsers s))
        by assumption. lia.
    + apply JsMapFacts.has_false in E.
      rewrite JsMapFacts.delete_absent by assumption. lia.
Qed.

Lemma run_size s evs :
  NoDup (JsMap.keys (activeUsers s)) ->
  JsMap.size (activeUsers (run Message s evs))
    + count_in_run Message live_disconnect s evs
  = JsMap.size (activeUsers s) + count_in_run Message fresh_join s evs.
Proof.
  revert s. induction evs as [|e evs IH]; intros s Hnd; simpl; [lia|].
  pose proof (handle_size s e Hnd) as H1.
  assert (Hnd' : NoDup (JsMap.keys (activeUsers (fst (handle Message s e))))).
  { pose proof (handle_activeUsers s e) as H.
    destruct e; rewrite H; auto.
    - now apply JsMapFacts.NoDup_keys_set.
    - now apply JsMapFacts.NoDup_keys_delete. }
  specialize (IH _ Hnd'). lia.
Qed.

Lemma count_fresh_le_joins s evs :
  count_in_run Message fresh_join s evs <= count_joins evs.
Proof.
  unfold count_joins. revert s.
  induction evs as [|e evs IH]; intros s; simpl; [lia|].
  specialize (IH (fst (handle Message s e))).
  destruct e; simpl in *; try lia.
  destruct (negb _); lia.
Qed.
End RegistryFacts.

(** * The join handler and the registry *)

(** C1, as stated, fails on the handler: a join on a socket that is already
    registered is not rejected, the entry's username and joinedAt are
    replaced. *)
Lemma join_registered_replaces_entry :
  JsMap.get "s1" (activeUsers alice_joined)
    = Some (mkUser "s1" "alice" "2024-01-01T00:00:00.000Z") /\
  JsMap.get "s1"
    (activeUsers (fst (on_join "s1" "bob" "2024-01-01T00:05:00.000Z"
                               "2024-01-01T00:05:00.001Z" alice_joined)))
    <> Some (mkUser "s1" "alice" "2024-01-01T00:00:00.000Z").
Proof. split; [reflexivity | discriminate]. Qed.

(** C1, amended: a join on a socket that is already registered is accepted
    and overwrites the entry where it stands. Afterwards the socket's entry
    carries the new username and the new joinedAt, every other socket's
    entry is as before, and the keys, their order and the size of the
    registry are unchanged. *)
Theorem join_registered_overwrites s sid username now1 now2 prior :
  JsMap.get sid (activeUsers s) = Some prior ->
  let s' := fst (on_join sid username now1 now2 s) in
  JsMap.get sid (activeUsers s') = Some (mkUser sid username now1) /\
  (forall k, k <> sid ->
             JsMap.get k (activeUsers s') = JsMap.get k (activeUsers s)) /\
  JsMap.keys (activeUsers s') = JsMap.keys (activeUsers s) /\
  JsMap.size (activeUsers s') = JsMap.size (activeUsers s).
Proof.
  intros H. simpl. repeat split.
  - apply JsMapFacts.get_set_eq.
  - intros k Hk. apply JsMapFacts.get_set_ne. congruence.
  - apply JsMapFacts.keys_set_present. congruence.
  - apply JsMapFacts.size_set_present. congruence.
Qed.

Lemma join_registered_overwrites_witness :
  JsMap.get "s1" (activeUsers alice_joined)
    = Some (mkUser "s1" "alice" "2024-01-01T00:00:00.000Z") /\
  JsMap.get "s1"
    (activeUsers (fst (on_join "s1" "bob" "2024-01-01T00:05:00.000Z"
                               "2024-01-01T00:05:00.001Z" alice_joined)))
    = Some (mkUser "s1" "bob" "2024-01-01T00:05:00.000Z").
Proof.
  split; [reflexivity|].
  apply (join_registered_overwrites alice_joined "s1" "bob"
           "2024-01-01T00:05:00.000Z" "2024-01-01T00:05:00.001Z"
           (mkUser "s1" "alice" "2024-01-01T00:00:00.000Z")).
  reflexivity.
Defined.

(** C2, as stated, fails on the handlers: two joins on the same socket and
    no disconnect leave one entry in the registry, not two. *)
Lemma registry_size_not_joins_minus_disconnects :
  Z.of_nat
    (JsMap.size
       (activeUsers
          (run false init
               [join "s1" "alice" "t0" "t0"; join "s1" "alice" "t1" "t1"])))
  <> (Z.of_nat
        (count_joins
           [join "s1" "alice" "t0" "t0"; join "s1" "alice" "t1" "t1"])
      - Z.of_nat
          (count_in_run false live_disconnect init
             [join "s1" "alice" "t0" "t0"; join "s1" "alice" "t1" "t1"]))%Z.
Proof. vm_compute. discriminate. Qed.

(** C2, amended: for every sequence of events from the initial state, the
    size of the registry equals the number of join events that arrived for a
    socket not registered at that moment minus the number of disconnect
    events that found their socket registered. That difference is never
    negative and is at most the number of join events, and a disconnect
    repeated for the same socket changes nothing and emits nothing. *)
Theorem registry_size_fresh_joins_minus_live_disconnects
        (Message : bool) (evs : list event) :
  (Z.of_nat (JsMap.size (activeUsers (run Message init evs)))
   = Z.of_nat (count_in_run Message fresh_join init evs)
     - Z.of_nat (count_in_run Message live_disconnect init evs))%Z /\
  (0 <= Z.of_nat (count_in_run Message fresh_join init evs)
        - Z.of_nat (count_in_run Message live_disconnect init evs))%Z /\
  count_in_run Message fresh_join init evs <= count_joins evs /\
  (forall s sid now now',
     on_disconnect sid now' (fst (on_disconnect sid now s))
     = (fst (on_disconnect sid now s), [])).
Proof.
  pose proof (run_size Message init evs (proj1 keyed_init)) as H.
  simpl in H.
  pose proof (count_fresh_le_joins Message init evs) as H'.
  repeat split; try lia.
  intros s sid now now'. unfold on_disconnect at 2 3.
  destruct (JsMap.get sid (activeUsers s)) eqn:E; simpl.
  - unfold on_disconnect. simpl.
    now rewrite JsMapFacts.get_delete_eq.
  - unfold on_disconnect. now rewrite E.
Qed.

(** * Registry entries and their keys *)

(** C10: in every state reachable from the initial one, an entry of the
    registry has as its id the socket id it is stored under, so every entry
    of the usersList sent to a joiner is the entry registered for the socket
    id it carries. *)
Theorem registry_entry_id_is_key (Message : bool) (s : state) :
  reachable Message s ->
  (forall k u, JsMap.get k (activeUsers s) = Some u -> u_id u = k) /\
  (forall sid username now1 now2 users,
      In (mkEmission (socket_emit sid) (usersList users))
         (snd (on_join sid username now1 now2 s)) ->
      forall u, In u users ->
        JsMap.get (u_id u)
                  (activeUsers (fst (on_join sid username now1 now2 s)))
        = Some u).
Proof.
  intros Hr. pose proof (reachable_keyed Message s Hr) as Hk. split.
  - intros k u Hget. destruct Hk as [_ Hid].
    apply Hid. now apply JsMapFacts.get_Some_In.
  - intros sid username now1 now2 users Hin u Hu.
    pose proof (handle_keyed Message s (join sid username now1 now2) Hk)
      as [Hnd Hid].
    simpl in Hnd, Hid.
    simpl in Hin. destruct Hin as [Hin|[Hin|[Hin|[]]]]; try discriminate.
    inversion Hin as [Hus]. subst users. simpl.
    unfold JsMap.values in Hu. apply in_map_iff in Hu.
    destruct Hu as [[k u'] [Hsnd Hin']]. simpl in Hsnd. subst u'.
    rewrite (Hid k u Hin'). now apply JsMapFacts.In_get_Some.
Qed.

Lemma registry_entry_id_is_key_witness :
  reachable false alice_joined /\
  u_id (mkUser "s1" "alice" "2024-01-01T00:00:00.000Z") = "s1".
Proof.
  assert (Hr : reachable false alice_joined).
  { exists [join "s1" "alice" "2024-01-01T00:00:00.000Z"
                 "2024-01-01T00:00:00.001Z"]. reflexivity. }
  split; [exact Hr|].
  apply (proj1 (registry_entry_id_is_key false alice_joined Hr)).
  reflexivity.
Defined.

(** * The message log *)

Section LogRuns.
Variable Message : bool.

Lemma store_snoc m log : exists older, store m log = older ++ [m].
Proof.
  unfold store, push, shift.
  destruct (Nat.ltb_spec 100 (List.length (log ++ [m]))) as [H|H].
  - destruct log as [|a log].
    + simpl in H. lia.
    + now exists log.
  - now exists log.
Qed.

(** A run of sends from one registered socket appends their messages. *)
Lemma run_sends s sid sender (sent : list send_args) :
  JsMap.get sid (activeUsers s) = Some sender ->
  messages (run Message s (List.map (send_event sid) sent))
  = store_all (List.map (message_of sender) sent) (messages s).
Proof.
  revert s. induction sent as [|[[body now_ms] now] sent IH]; intros s H.
  - reflexivity.
  - cbn [List.map run store_all fold_left send_event message_of handle].
    destruct (on_sendMessage_registered Message sid body now_ms now s sender H)
      as [Hu Hm].
    rewrite IH by (rewrite Hu; exact H).
    rewrite Hm. reflexivity.
Qed.
End LogRuns.

(** C3: the log never holds more than 100 entries in a state reached from
    the initial one; appending a sequence of messages to an empty log leaves
    the last 100 of them in their order, so eviction is oldest-first;
    [slice(-100)] of the log is then exactly those, and when more than 100
    were appended it has length 100 and starts with the message that is
    100th from the end (message #2 of 101). The same holds when the messages
    are sent through the handler by a registered socket. *)
Theorem log_bounded_fifo (Message : bool) (evs : list event)
        (ms : list chat_message) :
  List.length (messages (run Message init evs)) <= 100 /\
  List.length (store_all ms []) <= 100 /\
  store_all ms [] = lastn 100 ms /\
  slice (-100) (store_all ms []) = lastn 100 ms /\
  (100 < List.length ms ->
   List.length (slice (-100) (store_all ms [])) = 100 /\
   nth_error (slice (-100) (store_all ms [])) 0
   = nth_error ms (List.length ms - 100)) /\
  (forall s sid sender (sent : list send_args),
      JsMap.get sid (activeUsers s) = Some sender ->
      messages s = [] ->
      slice (-100) (messages (run Message s (List.map (send_event sid) sent)))
      = lastn 100 (List.map (message_of sender) sent)).
Proof.
  assert (Hall : store_all ms [] = lastn 100 ms).
  { now rewrite store_all_lastn by (simpl; lia). }
  assert (Hslice : forall l : list chat_message,
             slice (-100) (lastn 100 l) = lastn 100 l).
  { intros l. change (-100)%Z with (- Z.of_nat 100)%Z.
    rewrite slice_negative by lia.
    apply lastn_all. rewrite length_lastn. lia. }
  split; [apply run_log_bounded; simpl; lia|].
  split; [rewrite Hall, length_lastn; lia|].
  split; [exact Hall|].
  split; [rewrite Hall; apply Hslice|].
  split.
  - intros Hlen. rewrite Hall, Hslice. split.
    + rewrite length_lastn. lia.
    + rewrite nth_error_lastn. f_equal. lia.
  - intros s sid sender sent Hget Hempty.
    rewrite (run_sends Message s sid sender sent Hget), Hempty.
    rewrite store_all_lastn by (simpl; lia). apply Hslice.
Qed.

Lemma log_bounded_fifo_witness :
  100 < List.length (List.map (message_of (mkUser "s1" "alice" "t0"))
                              (List.map numbered (seq 1 101))) /\
  nth_error
    (slice (-100)
       (store_all (List.map (message_of (mkUser "s1" "alice" "t0"))
                            (List.map numbered (seq 1 101))) [])) 0
  = Some (message_of (mkUser "s1" "alice" "t0") (numbered 2)) /\
  nth_error
    (slice (-100)
       (messages
          (run false alice_joined
               (List.map (send_event "s1") (List.map numbered (seq 1 101))))))
    0
  = Some (message_of (mkUser "s1" "alice" "t0") (numbered 2)).
Proof.
  assert (H : 100 < List.length
                      (List.map (message_of (mkUser "s1" "alice" "t0"))
                                (List.map numbered (seq 1 101)))).
  { vm_compute. lia. }
  pose proof (log_bounded_fifo false []
                (List.map (message_of (mkUser "s1" "alice" "t0"))
                          (List.map numbered (seq 1 101))))
    as (_ & _ & _ & _ & Hfirst & Hsent).
  split; [exact H|]. split.
  - exact (proj2 (Hfirst H)).
  - rewrite (Hsent alice_joined "s1"
               (mkUser "s1" "alice" "2024-01-01T00:00:00.000Z")
               (List.map numbered (seq 1 101)) eq_refl eq_refl).
    reflexivity.
Defined.

(** C4: a sendMessage from a socket that is not in the registry leaves the
    whole state, the log included, as it was and emits nothing, so no
    connection receives anything. *)
Theorem sendMessage_unregistered_ignored
        (Message : bool) (s : state) (sid body : string) (now_ms : Z)
        (now : string) :
  JsMap.get sid (activeUsers s) = None ->
  on_sendMessage Message sid body now_ms now s = (s, []) /\
  messages (fst (on_sendMessage Message sid body now_ms now s))
  = messages s /\
  forall connected c,
    inbox connected c (snd (on_sendMessage Message sid body now_ms now s))
    = [].
Proof.
  intros H. unfold on_sendMessage. rewrite H. auto.
Qed.

Lemma sendMessage_unregistered_ignored_witness :
  JsMap.get "s2" (activeUsers alice_joined) = None /\
  on_sendMessage true "s2" "hello" 1704067200000 "2024-01-01T00:00:00.000Z"
                 alice_joined
  = (alice_joined, []).
Proof.
  split; [reflexivity|].
  apply (sendMessage_unregistered_ignored true alice_joined "s2" "hello"
           1704067200000 "2024-01-01T00:00:00.000Z").
  reflexivity.
Defined.

(** C9: the message stored by an accepted sendMessage carries the username
    the sender's registry entry has at that moment, and nothing that happens
    afterwards alters a message that is in the log. A join, in particular a
    re-join of the sender under another username, leaves the log as it is.
    After any further events the log is, entry for entry, the log as it was
    followed by the messages sent since, each as it was built when it was
    sent, short of the [k] oldest entries, where [k] is at most the number
    of messages sent since and is zero while the log stays within 100; so
    every earlier entry from index [k] on is found unchanged, [k] places
    further to the front. *)
Theorem message_username_fixed_at_send
        (Message : bool) (s : state) (sid body : string) (now_ms : Z)
        (now : string) (sender : user) :
  JsMap.get sid (activeUsers s) = Some sender ->
  let s1 := fst (on_sendMessage Message sid body now_ms now s) in
  (exists older,
      messages s1
      = older ++ [mkMessage now_ms (u_username sender) body now]) /\
  (forall username' now1 now2,
      messages (fst (on_join sid username' now1 now2 s1)) = messages s1) /\
  (forall evs,
      let new := appended Message s1 evs in
      let k := List.length (messages s1) + List.length new
               - List.length (messages (run Message s1 evs)) in
      k <= List.length new /\
      messages (run Message s1 evs) = skipn k (messages s1 ++ new) /\
      (List.length (messages s1) + List.length new <= 100 ->
       messages (run Message s1 evs) = messages s1 ++ new) /\
      (forall i, k <= i < List.length (messages s1) ->
                 nth_error (messages (run Message s1 evs)) (i - k)
                 = nth_error (messages s1) i)).
Proof.
  intros H s1. split; [|split].
  - unfold s1.
    destruct (on_sendMessage_registered Message sid body now_ms now s sender H)
      as [_ ->].
    apply store_snoc.
  - reflexivity.
  - intros evs new k.
    destruct (run_messages_exact Message s1 evs) as (k0 & Hk0 & E & Hz).
    fold new in Hk0, E, Hz.
    assert (Hk : k = k0).
    { unfold k. rewrite E, length_skipn, length_app. lia. }
    rewrite Hk. split; [exact Hk0|]. split; [exact E|]. split.
    + intros Hle. rewrite E, (Hz Hle). reflexivity.
    + intros i Hi. rewrite E, nth_error_skipn.
      replace (k0 + (i - k0)) with i by lia.
      apply nth_error_app1. lia.
Qed.

Lemma message_username_fixed_at_send_witness :
  JsMap.get "s1" (activeUsers alice_joined)
    = Some (mkUser "s1" "alice" "2024-01-01T00:00:00.000Z") /\
  messages
    (run false
         (fst (on_sendMessage false "s1" "hi" 1704067260000
                 "2024-01-01T00:01:00.000Z" alice_joined))
         [ join "s1" "bob" "2024-01-01T00:05:00.000Z"
                "2024-01-01T00:05:00.001Z";
           sendMessage "s1" "yo" 1704067560000 "2024-01-01T00:06:00.000Z" ])
  = [ mkMessage 1704067260000 "alice" "hi" "2024-01-01T00:01:00.000Z";
      mkMessage 1704067560000 "bob" "yo" "2024-01-01T00:06:00.000Z" ].
Proof.
  split; [reflexivity|].
  pose proof (proj2 (proj2 (message_username_fixed_at_send false alice_joined
                              "s1" "hi" 1704067260000
                              "2024-01-01T00:01:00.000Z"
                              (mkUser "s1" "alice" "2024-01-01T00:00:00.000Z")
                              eq_refl))
                    [ join "s1" "bob" "2024-01-01T00:05:00.000Z"
                           "2024-01-01T00:05:00.001Z";
                      sendMessage "s1" "yo" 1704067560000
                                  "2024-01-01T00:06:00.000Z" ])
    as (_ & _ & Hkeep & _).
  rewrite Hkeep; [reflexivity|].
  vm_compute. lia.
Defined.

(** * Who receives what *)

Section Delivery.
Implicit Types (connected : list string) (c sid : string) (em : emission).

Lemma delivered_iff connected em c :
  delivered connected em c = true <->
  In c connected /\ reaches (em_target em) c = true.
Proof.
  unfold delivered, recipients. rewrite existsb_exists. split.
  - intros (x & Hin & Heq). apply String.eqb_eq in Heq. subst x.
    now apply filter_In in Hin.
  - intros H. exists c. split.
    + now apply filter_In.
    + apply String.eqb_refl.
Qed.

Lemma broadcast_skips_sender connected sid p :
  delivered connected (mkEmission (socket_broadcast_emit sid) p) sid = false.
Proof.
  apply not_true_is_false. rewrite delivered_iff. simpl.
  rewrite String.eqb_refl. intros [_ H]. discriminate.
Qed.

Lemma broadcast_reaches_others connected sid p c :
  In c connected -> c <> sid ->
  delivered connected (mkEmission (socket_broadcast_emit sid) p) c = true.
Proof.
  intros Hin Hne. apply delivered_iff. split; auto. simpl.
  apply String.eqb_neq in Hne. now rewrite Hne.
Qed.

Lemma io_emit_reaches_all connected p c :
  In c connected -> delivered connected (mkEmission io_emit p) c = true.
Proof. intros Hin. apply delivered_iff. auto. Qed.

Lemma socket_emit_reaches_self connected sid p :
  In sid connected ->
  delivered connected (mkEmission (socket_emit sid) p) sid = true.
Proof.
  intros Hin. apply delivered_iff. split; auto. simpl.
  apply String.eqb_refl.
Qed.
End Delivery.

(** C5: whatever event is handled, a userJoined among the emissions comes
    from a join and does not reach the joining socket, a userTyping comes
    from a typing event and does not reach the typing socket, and a
    newMessage reaches every connected socket. An accepted sendMessage leads
    to such a newMessage, which its sender receives when connected: at once
    without the persistence model, and with it when the pending save
    settles. *)
Theorem notification_audiences (Message : bool) (s : state) (e : event) :
  (forall em, In em (snd (handle Message s e)) ->
     match em_payload em with
     | userJoined _ _ _ =>
         exists sid username now1 now2,
           e = join sid username now1 now2 /\
           forall connected, delivered connected em sid = false
     | userTyping _ _ =>
         exists sid isTyping,
           e = typing sid isTyping /\
           forall connected, delivered connected em sid = false
     | newMessage _ =>
         forall connected c, In c connected -> delivered connected em c = true
     | _ => True
     end) /\
  (forall sid body now_ms now sender connected,
      e = sendMessage sid body now_ms now ->
      JsMap.get sid (activeUsers s) = Some sender ->
      In sid connected ->
      let m := mkMessage now_ms (u_username sender) body now in
      let s' := fst (handle Message s e) in
      if Message then
        nth_error (saving s') (List.length (saving s)) = Some m /\
        inbox connected sid
              (snd (on_saveSettled (List.length (saving s)) s'))
        = [mkEmission io_emit (newMessage m)]
      else
        inbox connected sid (snd (handle Message s e))
        = [mkEmission io_emit (newMessage m)]).
Proof.
  split.
  - intros em Hin.
    destruct e as [sid u n1 n2|sid body now_ms now|sid b|sid now|k];
      simpl in Hin.
    + destruct Hin as [<-|[<-|[<-|[]]]]; simpl; auto.
      exists sid, u, n1, n2. split; auto.
      intros connected. apply broadcast_skips_sender.
    + unfold on_sendMessage in Hin.
      destruct (JsMap.get sid (activeUsers s)) as [sender|]; [|contradiction].
      destruct Message; simpl in Hin; [contradiction|].
      destruct Hin as [<-|[]]. simpl.
      intros connected c Hc. now apply io_emit_reaches_all.
    + unfold on_typing in Hin.
      destruct (JsMap.get sid (activeUsers s)); [|contradiction].
      destruct Hin as [<-|[]]. simpl.
      exists sid, b. split; auto.
      intros connected. apply broadcast_skips_sender.
    + unfold on_disconnect in Hin.
      destruct (JsMap.get sid (activeUsers s)); [|contradiction].
      destruct Hin as [<-|[]]. exact I.
    + unfold on_saveSettled in Hin.
      destruct (nth_error (saving s) k) as [pending|]; [|contradiction].
      destruct Hin as [<-|[]]. simpl.
      intros connected c Hc. now apply io_emit_reaches_all.
  - intros sid body now_ms now sender connected -> Hget Hin. simpl.
    unfold on_sendMessage. rewrite Hget.
    destruct Message; simpl.
    + unfold on_saveSettled. simpl.
      rewrite nth_error_app2, Nat.sub_diag by lia. simpl.
      split; auto.
      unfold inbox. simpl.
      now rewrite io_emit_reaches_all.
    + unfold inbox. simpl. now rewrite io_emit_reaches_all.
Qed.

Lemma notification_audiences_witness :
  In (mkEmission (socket_broadcast_emit "s2")
        (userJoined "bob" "bob joined the chat" "2024-01-01T00:05:00.001Z"))
     (snd (handle false alice_joined
             (join "s2" "bob" "2024-01-01T00:05:00.000Z"
                   "2024-01-01T00:05:00.001Z"))) /\
  (exists sid username now1 now2,
      join "s2" "bob" "2024-01-01T00:05:00.000Z" "2024-01-01T00:05:00.001Z"
      = join sid username now1 now2 /\
      forall connected,
        delivered connected
          (mkEmission (socket_broadcast_emit "s2")
             (userJoined "bob" "bob joined the chat"
                         "2024-01-01T00:05:00.001Z")) sid = false).
Proof.
  assert (H : In (mkEmission (socket_broadcast_emit "s2")
                    (userJoined "bob" "bob joined the chat"
                                "2024-01-01T00:05:00.001Z"))
                 (snd (handle false alice_joined
                         (join "s2" "bob" "2024-01-01T00:05:00.000Z"
                               "2024-01-01T00:05:00.001Z")))).
  { left. reflexivity. }
  split; [exact H|].
  exact (proj1 (notification_audiences false alice_joined
                  (join "s2" "bob" "2024-01-01T00:05:00.000Z"
                        "2024-01-01T00:05:00.001Z")) _ H).
Defined.

(** C6: of the emissions of a join, the joining socket receives exactly two,
    both addressed to it alone: a usersList with the values of the registry
    as it is after the registration, the joiner's own entry among them, and
    a messageHistory with the last 20 entries of the log, all of them when
    the log holds fewer. *)
Theorem join_direct_emissions
        (s : state) (sid username now1 now2 : string)
        (connected : list string) :
  In sid connected ->
  let s' := fst (on_join sid username now1 now2 s) in
  let out := snd (on_join sid username now1 now2 s) in
  inbox connected sid out
  = [ mkEmission (socket_emit sid)
                 (usersList (JsMap.values (activeUsers s')));
      mkEmission (socket_emit sid)
                 (messageHistory (lastn 20 (messages s))) ] /\
  (forall k u, JsMap.get k (activeUsers s') = Some u ->
               In u (JsMap.values (activeUsers s'))) /\
  In (mkUser sid username now1) (JsMap.values (activeUsers s')) /\
  List.length (lastn 20 (messages s))
  = Nat.min 20 (List.length (messages s)) /\
  messages s' = messages s.
Proof.
  intros Hin s' out.
  assert (Hvals : forall k u, JsMap.get k (activeUsers s') = Some u ->
                              In u (JsMap.values (activeUsers s'))).
  { intros k u Hget. apply JsMapFacts.get_Some_In in Hget.
    unfold JsMap.values. change u with (snd (k, u)). now apply in_map. }
  split; [|split; [exact Hvals|split; [|split]]].
  - unfold out, inbox. simpl.
    rewrite broadcast_skips_sender.
    rewrite !socket_emit_reaches_self by assumption.
    change (-20)%Z with (- Z.of_nat 20)%Z.
    rewrite slice_negative by lia. reflexivity.
  - apply (Hvals sid). unfold s'. simpl. apply JsMapFacts.get_set_eq.
  - apply length_lastn.
  - reflexivity.
Qed.

Lemma join_direct_emissions_witness :
  In "s2" ["s1"; "s2"] /\
  inbox ["s1"; "s2"] "s2"
        (snd (on_join "s2" "bob" "2024-01-01T00:05:00.000Z"
                      "2024-01-01T00:05:00.001Z" alice_joined))
  = [ mkEmission (socket_emit "s2")
        (usersList [ mkUser "s1" "alice" "2024-01-01T00:00:00.000Z";
                     mkUser "s2" "bob" "2024-01-01T00:05:00.000Z" ]);
      mkEmission (socket_emit "s2") (messageHistory []) ].
Proof.
  assert (H : In "s2" ["s1"; "s2"]) by (right; left; reflexivity).
  split; [exact H|].
  exact (proj1 (join_direct_emissions alice_joined "s2" "bob"
                  "2024-01-01T00:05:00.000Z" "2024-01-01T00:05:00.001Z"
                  ["s1"; "s2"] H)).
Defined.

(** C7: a disconnect of a registered socket removes its entry, leaves the
    other entries and the log alone, and emits one userLeft carrying the
    entry's username, which every other connected socket receives; a
    disconnect of a socket that is not registered changes nothing and emits
    nothing. *)
Theorem disconnect_unregisters (s : state) (sid now : string) :
  match JsMap.get sid (activeUsers s) with
  | Some leaver =>
      let s' := fst (on_disconnect sid now s) in
      let out := snd (on_disconnect sid now s) in
      JsMap.get sid (activeUsers s') = None /\
      (forall k, k <> sid ->
                 JsMap.get k (activeUsers s') = JsMap.get k (activeUsers s)) /\
      messages s' = messages s /\
      out = [ mkEmission (socket_broadcast_emit sid)
                (userLeft (u_username leaver)
                          (u_username leaver ++ " left the chat")%string
                          now) ] /\
      (forall connected c, In c connected -> c <> sid ->
                           inbox connected c out = out)
  | None => on_disconnect sid now s = (s, [])
  end.
Proof.
  unfold on_disconnect.
  destruct (JsMap.get sid (activeUsers s)) as [leaver|] eqn:E; simpl; auto.
  repeat split.
  - apply JsMapFacts.get_delete_eq.
  - intros k Hk. apply JsMapFacts.get_delete_ne. congruence.
  - intros connected c Hin Hne. unfold inbox. simpl.
    now rewrite broadcast_reaches_others.
Qed.

Lemma disconnect_unregisters_witness :
  JsMap.get "s1"
    (activeUsers (fst (on_disconnect "s1" "2024-01-01T00:09:00.000Z"
                                     alice_joined))) = None /\
  on_disconnect "s2" "2024-01-01T00:09:00.000Z" alice_joined
  = (alice_joined, []).
Proof.
  split.
  - exact (proj1 (disconnect_unregisters alice_joined "s1"
                    "2024-01-01T00:09:00.000Z")).
  - exact (disconnect_unregisters alice_joined "s2"
             "2024-01-01T00:09:00.000Z").
Defined.

(** C8: a typing event leaves the state, registry and log included, as it
    was. From a registered socket it emits one userTyping carrying the
    entry's username and the flag, which every other connected socket
    receives and the sender does not; from a socket that is not registered
    it emits nothing. *)
Theorem typing_frame (s : state) (sid : string) (isTyping : bool) :
  fst (on_typing sid isTyping s) = s /\
  match JsMap.get sid (activeUsers s) with
  | Some typist =>
      let out := snd (on_typing sid isTyping s) in
      out = [ mkEmission (socket_broadcast_emit sid)
                (userTyping (u_username typist) isTyping) ] /\
      (forall connected, inbox connected sid out = []) /\
      (forall connected c, In c connected -> c <> sid ->
                           inbox connected c out = out)
  | None => snd (on_typing sid isTyping s) = []
  end.
Proof.
  unfold on_typing.
  destruct (JsMap.get sid (activeUsers s)) as [typist|] eqn:E; simpl; auto.
  repeat split.
  - intros connected. unfold inbox. simpl.
    now rewrite broadcast_skips_sender.
  - intros connected c Hin Hne. unfold inbox. simpl.
    now rewrite broadcast_reaches_others.
Qed.

Lemma typing_frame_witness :
  snd (on_typing "s1" true alice_joined)
  = [ mkEmission (socket_broadcast_emit "s1") (userTyping "alice" true) ] /\
  snd (on_typing "s2" true alice_joined) = [].
Proof.
  split.
  - exact (proj1 (proj2 (typing_frame alice_joined "s1" true))).
  - exact (proj2 (typing_frame alice_joined "s2" true)).
Defined.

(** * Further properties of the registry *)

Section RegistryOrder.
Context {V : Type}.
Implicit Types (m : JsMap.t V) (k : string) (v : V).

Lemma set_absent k v m :
  JsMap.get k m = None -> JsMap.set k v m = m ++ [(k, v)].
Proof.
  induction m as [|[k' v'] m IH]; simpl; intros H; auto.
  destruct (String.eqb k' k); [discriminate|].
  now rewrite IH.
Qed.

Lemma delete_set_absent k v m :
  JsMap.get k m = None -> JsMap.delete k (JsMap.set k v m) = m.
Proof.
  intros H. rewrite set_absent by assumption.
  unfold JsMap.delete. rewrite filter_app. simpl.
  rewrite String.eqb_refl. simpl. rewrite app_nil_r.
  now apply JsMapFacts.delete_absent.
Qed.
End RegistryOrder.

Lemma keyed_ids (m : JsMap.t user) :
  (forall k u, In (k, u) m -> u_id u = k) ->
  List.map u_id (JsMap.values m) = JsMap.keys m.
Proof.
  unfold JsMap.values, JsMap.keys.
  induction m as [|[k u] m IH]; simpl; intros H; auto.
  rewrite (H k u) by auto. f_equal. apply IH.
  intros k' u' Hin. apply H. auto.
Qed.

(** X1: a join of a socket that is not registered puts its entry behind all
    the others: the registry grows by one at the end, and the usersList the
    joiner is sent is the list of the participants before it, in their
    order, followed by the joiner. *)
Theorem fresh_join_appends (s : state) (sid username now1 now2 : string) :
  JsMap.get sid (activeUsers s) = None ->
  let s' := fst (on_join sid username now1 now2 s) in
  activeUsers s' = activeUsers s ++ [(sid, mkUser sid username now1)] /\
  JsMap.size (activeUsers s') = S (JsMap.size (activeUsers s)) /\
  In (mkEmission (socket_emit sid)
        (usersList (JsMap.values (activeUsers s)
                    ++ [mkUser sid username now1])))
     (snd (on_join sid username now1 now2 s)).
Proof.
  intros H. simpl. rewrite set_absent by assumption. repeat split.
  - unfold JsMap.size. rewrite length_app. simpl. lia.
  - right. left. unfold JsMap.values. now rewrite map_app.
Qed.

Lemma fresh_join_appends_witness :
  JsMap.get "s2" (activeUsers alice_joined) = None /\
  JsMap.values
    (activeUsers (fst (on_join "s2" "bob" "2024-01-01T00:05:00.000Z"
                               "2024-01-01T00:05:00.001Z" alice_joined)))
  = [ mkUser "s1" "alice" "2024-01-01T00:00:00.000Z";
      mkUser "s2" "bob" "2024-01-01T00:05:00.000Z" ].
Proof.
  split; [reflexivity|].
  rewrite (proj1 (fresh_join_appends alice_joined "s2" "bob"
                    "2024-01-01T00:05:00.000Z" "2024-01-01T00:05:00.001Z"
                    eq_refl)).
  reflexivity.
Defined.

(** X2: a join of a socket that is not registered followed by its disconnect
    gives back the state there was before the join, and the disconnect
    announces the username given at the join. *)
Theorem join_then_disconnect_restores
        (s : state) (sid username now1 now2 now : string) :
  JsMap.get sid (activeUsers s) = None ->
  on_disconnect sid now (fst (on_join sid username now1 now2 s))
  = (s, [ mkEmission (socket_broadcast_emit sid)
            (userLeft username (username ++ " left the chat")%string now) ]).
Proof.
  intros H. unfold on_disconnect. simpl.
  rewrite JsMapFacts.get_set_eq. simpl.
  rewrite delete_set_absent by assumption.
  destruct s; reflexivity.
Qed.

Lemma join_then_disconnect_restores_witness :
  JsMap.get "s2" (activeUsers alice_joined) = None /\
  fst (on_disconnect "s2" "2024-01-01T00:09:00.000Z"
         (fst (on_join "s2" "bob" "2024-01-01T00:05:00.000Z"
                       "2024-01-01T00:05:00.001Z" alice_joined)))
  = alice_joined.
Proof.
  split; [reflexivity|].
  rewrite (join_then_disconnect_restores alice_joined "s2" "bob"
             "2024-01-01T00:05:00.000Z" "2024-01-01T00:05:00.001Z"
             "2024-01-01T00:09:00.000Z" eq_refl).
  reflexivity.
Defined.

(** X3: what each handler leaves alone. A join and a disconnect do not touch
    the log or the pending saves; a sendMessage does not touch the registry;
    a typing event touches nothing; the settling of a save touches neither
    the registry nor the log. *)
Theorem handlers_frame (Message : bool) (s : state) (e : event) :
  let s' := fst (handle Message s e) in
  match e with
  | join _ _ _ _ | disconnect _ _ =>
      messages s' = messages s /\ saving s' = saving s
  | sendMessage _ _ _ _ => activeUsers s' = activeUsers s
  | typing _ _ => s' = s
  | saveSettled _ =>
      activeUsers s' = activeUsers s /\ messages s' = messages s
  end.
Proof.
  destruct e as [sid u n1 n2|sid body now_ms now|sid b|sid now|k]; simpl.
  - auto.
  - unfold on_sendMessage.
    destruct (JsMap.get _ _); [destruct Message|]; reflexivity.
  - unfold on_typing. now destruct (JsMap.get _ _).
  - unfold on_disconnect. destruct (JsMap.get _ _); simpl; auto.
  - unfold on_saveSettled. destruct (nth_error _ _); simpl; auto.
Qed.

(** X4: in every state reached from the initial one no two entries of the
    registry carry the same id, and so no two entries of a usersList do. *)
Theorem usersList_ids_distinct (Message : bool) (s : state) :
  reachable Message s ->
  NoDup (List.map u_id (JsMap.values (activeUsers s))) /\
  forall sid username now1 now2,
    NoDup (List.map u_id
             (JsMap.values
                (activeUsers (fst (on_join sid username now1 now2 s))))).
Proof.
  intros Hr. pose proof (reachable_keyed Message s Hr) as Hk. split.
  - destruct Hk as [Hnd Hid]. now rewrite keyed_ids.
  - intros sid username now1 now2.
    destruct (handle_keyed Message s (join sid username now1 now2) Hk)
      as [Hnd Hid].
    simpl in Hnd, Hid. simpl. now rewrite keyed_ids.
Qed.

Lemma usersList_ids_distinct_witness :
  reachable true alice_joined /\
  NoDup (List.map u_id (JsMap.values (activeUsers alice_joined))).
Proof.
  assert (Hr : reachable true alice_joined).
  { exists [join "s1" "alice" "2024-01-01T00:00:00.000Z"
                 "2024-01-01T00:00:00.001Z"]. reflexivity. }
  split; [exact Hr|].
  exact (proj1 (usersList_ids_distinct true alice_joined Hr)).
Defined.

(** X5: once a socket has joined, in whatever state, its events are not
    ignored and carry the username of that join: a typing event is
    broadcast under it and a sendMessage stores a message under it as the
    newest entry of the log. *)
Theorem joined_socket_is_heard
        (Message : bool) (s : state) (sid username now1 now2 : string)
        (isTyping : bool) (body : string) (now_ms : Z) (now : string) :
  let s1 := fst (on_join sid username now1 now2 s) in
  snd (on_typing sid isTyping s1)
  = [ mkEmission (socket_broadcast_emit sid) (userTyping username isTyping) ]
  /\
  exists older,
    messages (fst (on_sendMessage Message sid body now_ms now s1))
    = older ++ [mkMessage now_ms username body now].
Proof.
  simpl. split.
  - unfold on_typing. simpl. now rewrite JsMapFacts.get_set_eq.
  - destruct (on_sendMessage_registered Message sid body now_ms now
                (fst (on_join sid username now1 now2 s))
                (mkUser sid username now1)) as [_ Hm].
    + simpl. apply JsMapFacts.get_set_eq.
    + simpl in Hm. rewrite Hm. apply store_snoc.
Qed.

(** X6: once a socket has disconnected, in whatever state, a typing event
    or a sendMessage that still arrives for it changes nothing and emits
    nothing. *)
Theorem disconnected_socket_is_ignored
        (Message : bool) (s : state) (sid now : string)
        (isTyping : bool) (body : string) (now_ms : Z) (now' : string) :
  let s1 := fst (on_disconnect sid now s) in
  on_typing sid isTyping s1 = (s1, []) /\
  on_sendMessage Message sid body now_ms now' s1 = (s1, []).
Proof.
  assert (H : JsMap.get sid (activeUsers (fst (on_disconnect sid now s)))
              = None).
  { unfold on_disconnect.
    destruct (JsMap.get sid (activeUsers s)) eqn:E; simpl; auto.
    apply JsMapFacts.get_delete_eq. }
  simpl. unfold on_typing, on_sendMessage. now rewrite H.
Qed.

(** * Further properties of the emissions and of the log *)

Lemma socket_emit_skips_others connected sid p c :
  c <> sid ->
  delivered connected (mkEmission (socket_emit sid) p) c = false.
Proof.
  intros Hne. apply not_true_is_false. rewrite delivered_iff. simpl.
  intros [_ H]. apply String.eqb_eq in H. contradiction.
Qed.

(** X7: of the emissions of a join, a connected socket other than the joiner
    receives the userJoined notification, with the joiner's username and
    the text built from it, and nothing else. *)
Theorem others_hear_join
        (s : state) (sid username now1 now2 : string)
        (connected : list string) (c : string) :
  In c connected -> c <> sid ->
  inbox connected c (snd (on_join sid username now1 now2 s))
  = [ mkEmission (socket_broadcast_emit sid)
        (userJoined username (username ++ " joined the chat")%string now2) ].
Proof.
  intros Hin Hne. unfold inbox. simpl.
  rewrite broadcast_reaches_others by assumption.
  now rewrite !socket_emit_skips_others by assumption.
Qed.

Lemma others_hear_join_witness :
  In "s1" ["s1"; "s2"] /\ "s1" <> "s2" /\
  inbox ["s1"; "s2"] "s1"
        (snd (on_join "s2" "bob" "2024-01-01T00:05:00.000Z"
                      "2024-01-01T00:05:00.001Z" alice_joined))
  = [ mkEmission (socket_broadcast_emit "s2")
        (userJoined "bob" "bob joined the chat" "2024-01-01T00:05:00.001Z") ].
Proof.
  assert (Hin : In "s1" ["s1"; "s2"]) by (left; reflexivity).
  assert (Hne : "s1" <> "s2") by discriminate.
  split; [exact Hin|]. split; [exact Hne|].
  exact (others_hear_join alice_joined "s2" "bob" "2024-01-01T00:05:00.000Z"
           "2024-01-01T00:05:00.001Z" ["s1"; "s2"] "s1" Hin Hne).
Defined.

Section Broadcasts.
Variable Message : bool.
Implicit Types (s : state) (e : event) (evs : list event).

Lemma handle_newMessages s e :
  List.length (filter is_newMessage (snd (handle Message s e)))
    + List.length (saving (fst (handle Message s e)))
  = List.length (saving s) + (if accepted_send s e then 1 else 0).
Proof.
  destruct e as [sid u n1 n2|sid body now_ms now|sid b|sid now|k]; simpl.
  - lia.
  - unfold on_sendMessage, JsMap.has.
    destruct (JsMap.get sid (activeUsers s)); simpl; [|lia].
    destruct Message; simpl; [|lia].
    rewrite length_app. simpl. lia.
  - unfold on_typing. destruct (JsMap.get _ _); simpl; lia.
  - unfold on_disconnect. destruct (JsMap.get _ _); simpl; lia.
  - unfold on_saveSettled.
    destruct (nth_error (saving s) k) as [pending|] eqn:E;
      cbn -[skipn firstn]; [|lia].
    assert (Hk : k < List.length (saving s))
      by (apply nth_error_Some; congruence).
    rewrite length_app, length_firstn, length_skipn. lia.
Qed.

Lemma run_newMessages s evs :
  List.length (filter is_newMessage (emitted Message s evs))
    + List.length (saving (run Message s evs))
  = List.length (saving s) + count_in_run Message accepted_send s evs.
Proof.
  revert s. induction evs as [|e evs IH]; intros s; simpl; [lia|].
  rewrite filter_app, length_app.
  pose proof (handle_newMessages s e). specialize (IH (fst (handle Message s e))).
  lia.
Qed.

Lemma handle_log_length s e :
  List.length (messages s) <= 100 ->
  List.length (messages (fst (handle Message s e)))
  = Nat.min 100 (List.length (messages s)
                 + (if accepted_send s e then 1 else 0)).
Proof.
  intros Hle.
  destruct e as [sid u n1 n2|sid body now_ms now|sid b|sid now|k]; cbn -[Nat.min].
  - lia.
  - unfold JsMap.has.
    destruct (JsMap.get sid (activeUsers s)) as [sender|] eqn:E.
    + destruct (on_sendMessage_registered Message sid body now_ms now s
                  sender E) as [_ ->].
      rewrite store_lastn, length_lastn, length_app by assumption.
      cbn -[Nat.min]. lia.
    + unfold on_sendMessage. rewrite E. cbn -[Nat.min]. lia.
  - unfold on_typing. destruct (JsMap.get _ _); cbn -[Nat.min]; lia.
  - unfold on_disconnect. destruct (JsMap.get _ _); cbn -[Nat.min]; lia.
  - unfold on_saveSettled. destruct (nth_error _ _); cbn -[Nat.min]; lia.
Qed.

Lemma run_log_length s evs :
  List.length (messages s) <= 100 ->
  List.length (messages (run Message s evs))
  = Nat.min 100 (List.length (messages s)
                 + count_in_run Message accepted_send s evs).
Proof.
  revert s. induction evs as [|e evs IH]; intros s Hle; cbn -[Nat.min]; [lia|].
  pose proof (handle_log_length s e Hle) as H.
  rewrite IH by (rewrite H; lia). rewrite H. lia.
Qed.
Lemma broadcast_messages_app (out out' : list emission) :
  broadcast_messages (out ++ out')
  = broadcast_messages out ++ broadcast_messages out'.
Proof.
  induction out as [|em out IH]; simpl; auto.
  destruct (em_payload em); simpl; now rewrite IH.
Qed.

(** One event: what it broadcasts and what then waits is what waited before
    and the message it sends. *)
Lemma handle_broadcast s e :
  Permutation
    (broadcast_messages (snd (handle Message s e))
     ++ saving (fst (handle Message s e)))
    (saving s ++ match sent_message s e with Some m => [m] | None => [] end).
Proof.
  destruct e as [sid u n1 n2|sid body now_ms now|sid b|sid now|k]; simpl.
  - now rewrite app_nil_r.
  - unfold on_sendMessage.
    destruct (JsMap.get sid (activeUsers s)) as [sender|]; simpl.
    + destruct Message; simpl.
      * apply Permutation_refl.
      * apply Permutation_cons_append.
    + now rewrite app_nil_r.
  - unfold on_typing.
    destruct (JsMap.get sid (activeUsers s)); simpl; now rewrite app_nil_r.
  - unfold on_disconnect.
    destruct (JsMap.get sid (activeUsers s)); simpl; now rewrite app_nil_r.
  - unfold on_saveSettled.
    destruct (nth_error (saving s) k) as [pending|] eqn:E;
      cbn -[skipn firstn]; rewrite app_nil_r; [|apply Permutation_refl].
    apply nth_error_split in E. destruct E as (l1 & l2 & Hs & Hl).
    rewrite Hs. subst k.
    rewrite firstn_app, firstn_all, Nat.sub_diag, app_nil_r.
    replace (skipn (S (List.length l1)) (l1 ++ pending :: l2)) with l2.
    + apply Permutation_middle.
    + rewrite skipn_app, skipn_all2 by lia.
      replace (S (List.length l1) - List.length l1) with 1 by lia.
      reflexivity.
Qed.

Lemma run_broadcast s evs :
  Permutation
    (broadcast_messages (emitted Message s evs) ++ saving (run Message s evs))
    (saving s ++ appended Message s evs).
Proof.
  revert s. induction evs as [|e evs IH]; intros s; cbn [emitted run appended].
  - simpl. now rewrite app_nil_r.
  - rewrite broadcast_messages_app, <- app_assoc.
    rewrite (IH (fst (handle Message s e))), app_assoc.
    rewrite (handle_broadcast s e), <- app_assoc.
    destruct (sent_message s e); reflexivity.
Qed.

Lemma length_appended s evs :
  List.length (appended Message s evs)
  = count_in_run Message accepted_send s evs.
Proof.
  revert s. induction evs as [|e evs IH]; intros s; cbn [appended count_in_run].
  - reflexivity.
  - specialize (IH (fst (handle Message s e))).
    destruct e as [sid u n1 n2|sid body now_ms now|sid b|sid now|k];
      cbn [sent_message accepted_send]; try exact IH.
    unfold JsMap.has.
    destruct (JsMap.get sid (activeUsers s)); cbn [List.length];
      rewrite IH; reflexivity.
Qed.
End Broadcasts.

Lemma run_no_pending s evs :
  saving s = [] -> saving (run false s evs) = [].
Proof.
  revert s. induction evs as [|e evs IH]; intros s Hs; simpl; auto.
  apply IH.
  destruct e as [sid u n1 n2|sid body now_ms now|sid b|sid now|k]; simpl;
    auto.
  - unfold on_sendMessage. now destruct (JsMap.get sid (activeUsers s)).
  - unfold on_typing. now destruct (JsMap.get sid (activeUsers s)).
  - unfold on_disconnect. now destruct (JsMap.get sid (activeUsers s)).
  - unfold on_saveSettled. rewrite Hs. now destruct k.
Qed.

(** Without the persistence model a run that starts with no save pending
    broadcasts the messages it is sent, as they are and in their order. *)
Lemma run_broadcast_in_order s evs :
  saving s = [] ->
  broadcast_messages (emitted false s evs) = appended false s evs.
Proof.
  revert s. induction evs as [|e evs IH]; intros s Hs;
    cbn [emitted appended]; [reflexivity|].
  rewrite broadcast_messages_app.
  assert (Hs' : saving (fst (handle false s e)) = [])
    by apply (run_no_pending s [e] Hs).
  rewrite (IH _ Hs').
  destruct e as [sid u n1 n2|sid body now_ms now|sid b|sid now|k]; simpl.
  - reflexivity.
  - unfold on_sendMessage.
    destruct (JsMap.get sid (activeUsers s)); reflexivity.
  - unfold on_typing.
    destruct (JsMap.get sid (activeUsers s)); reflexivity.
  - unfold on_disconnect.
    destruct (JsMap.get sid (activeUsers s)); reflexivity.
  - unfold on_saveSettled. rewrite Hs. destruct k; reflexivity.
Qed.

(** X8: along every run from the initial state, the messages carried by the
    newMessage emissions so far together with the messages of the sends
    still waiting for their save are, each as often as it occurs, the
    messages built by the sendMessage events that found their socket
    registered: an accepted message is broadcast as it was built and at
    most once, none is lost, and nothing else goes out as a newMessage.
    Without the persistence model no send ever waits and the messages
    broadcast are the accepted ones in their order. The counts follow. *)
Theorem every_accepted_message_is_broadcast_once
        (Message : bool) (evs : list event) :
  Permutation
    (broadcast_messages (emitted Message init evs)
     ++ saving (run Message init evs))
    (appended Message init evs) /\
  broadcast_messages (emitted false init evs) = appended false init evs /\
  List.length (appended Message init evs)
  = count_in_run Message accepted_send init evs /\
  List.length (filter is_newMessage (emitted Message init evs))
    + List.length (saving (run Message init evs))
  = count_in_run Message accepted_send init evs /\
  List.length (filter is_newMessage (emitted false init evs))
  = count_in_run false accepted_send init evs.
Proof.
  split; [apply (run_broadcast Message init evs)|].
  split; [apply (run_broadcast_in_order init evs eq_refl)|].
  split; [apply length_appended|].
  split.
  - apply (run_newMessages Message init evs).
  - pose proof (run_newMessages false init evs) as H. simpl in H.
    rewrite (run_no_pending init evs eq_refl) in H. simpl in H. lia.
Qed.

(** X9: what [GET /] reports after any run from the initial state. Its
    totalMessages is the number of accepted sendMessage events capped at
    100, the length of the in-memory log and not a count of all messages
    ever sent; its users is the number of joins of unregistered sockets
    minus the number of disconnects of registered ones. *)
Theorem status_summary_counts
        (Message : bool) (NODE_ENV : string) (evs : list event) :
  let summary := get_root NODE_ENV (run Message init evs) in
  st_totalMessages summary
  = Nat.min 100 (count_in_run Message accepted_send init evs) /\
  st_totalMessages summary <= 100 /\
  st_users summary + count_in_run Message live_disconnect init evs
  = count_in_run Message fresh_join init evs.
Proof.
  cbn -[Nat.min].
  pose proof (run_log_length Message init evs (Nat.le_0_l _)) as H.
  cbn -[Nat.min] in H.
  pose proof (run_size Message init evs (proj1 keyed_init)) as H'.
  cbn in H'. repeat split; lia.
Qed.

Section LastFacts.
Context {A : Type}.
Implicit Types (l : list A) (n p : nat).

Lemma lastn_snoc n l x : lastn (S n) (l ++ [x]) = lastn n l ++ [x].
Proof.
  unfold lastn. rewrite length_app. simpl List.length.
  replace (List.length l + 1 - S n) with (List.length l - n) by lia.
  rewrite skipn_app.
  replace (List.length l - n - List.length l) with 0 by lia.
  reflexivity.
Qed.

Lemma lastn_lastn n p l : n <= p -> lastn n (lastn p l) = lastn n l.
Proof.
  intros H. unfold lastn. rewrite length_skipn, skipn_skipn.
  f_equal. lia.
Qed.
End LastFacts.

(** X10: a message that has just been accepted is the last entry of the
    messageHistory sent to whoever joins next, behind at most 19 older
    ones. *)
Theorem history_ends_with_latest
        (Message : bool) (s : state) (sid body : string) (now_ms : Z)
        (now : string) (sender : user) (sid' username now1 now2 : string) :
  JsMap.get sid (activeUsers s) = Some sender ->
  let s1 := fst (on_sendMessage Message sid body now_ms now s) in
  exists older,
    List.length older < 20 /\
    In (mkEmission (socket_emit sid')
          (messageHistory
             (older ++ [mkMessage now_ms (u_username sender) body now])))
       (snd (on_join sid' username now1 now2 s1)).
Proof.
  intros H s1.
  destruct (on_sendMessage_registered Message sid body now_ms now s sender H)
    as [_ Hm].
  destruct (store_snoc (mkMessage now_ms (u_username sender) body now)
              (messages s)) as [older Ho].
  exists (lastn 19 older). split.
  - rewrite length_lastn. lia.
  - right. right. left. unfold s1. rewrite Hm, Ho.
    change (-20)%Z with (- Z.of_nat 20)%Z.
    rewrite slice_negative by lia. now rewrite lastn_snoc.
Qed.

Lemma history_ends_with_latest_witness :
  JsMap.get "s1" (activeUsers alice_joined)
    = Some (mkUser "s1" "alice" "2024-01-01T00:00:00.000Z") /\
  exists older,
    List.length older < 20 /\
    In (mkEmission (socket_emit "s2")
          (messageHistory
             (older ++ [mkMessage 1704067260000 "alice" "hi"
                                  "2024-01-01T00:01:00.000Z"])))
       (snd (on_join "s2" "bob" "2024-01-01T00:05:00.000Z"
               "2024-01-01T00:05:00.001Z"
               (fst (on_sendMessage true "s1" "hi" 1704067260000
                       "2024-01-01T00:01:00.000Z" alice_joined)))).
Proof.
  split; [reflexivity|].
  exact (history_ends_with_latest true alice_joined "s1" "hi" 1704067260000
           "2024-01-01T00:01:00.000Z"
           (mkUser "s1" "alice" "2024-01-01T00:00:00.000Z")
           "s2" "bob" "2024-01-01T00:05:00.000Z" "2024-01-01T00:05:00.001Z"
           eq_refl).
Defined.

(** X11: without the persistence model [GET /api/messages] never answers
    with an error, whatever the database would have said: after any run
    from the initial state it answers with the last 50 entries of the log,
    oldest first, as many as there were accepted sends when these were
    fewer than 50; the messageHistory a joiner is sent in that state is the
    last 20 of them. *)
Theorem api_messages_in_memory
        (D : Type) (found : option (list D)) (evs : list event) :
  let s := run false init evs in
  exists recent,
    get_api_messages false found s = json_log recent /\
    recent = lastn 50 (messages s) /\
    List.length recent
    = Nat.min 50 (count_in_run false accepted_send init evs) /\
    slice (-20) (messages s) = lastn 20 recent.
Proof.
  intros s. exists (lastn 50 (messages s)).
  assert (H50 : slice (-50) (messages s) = lastn 50 (messages s)).
  { change (-50)%Z with (- Z.of_nat 50)%Z. apply slice_negative. lia. }
  repeat split.
  - unfold get_api_messages. now rewrite H50.
  - rewrite length_lastn. unfold s.
    rewrite (run_log_length false init evs (Nat.le_0_l _)).
    cbn -[Nat.min]. lia.
  - change (-20)%Z with (- Z.of_nat 20)%Z.
    rewrite slice_negative by lia.
    symmetry. apply lastn_lastn. lia.
Qed.

(** * The allowed origins *)

Lemma split_comma_nonempty str : split_comma str <> [].
Proof.
  destruct str as [|c rest]; simpl; [discriminate|].
  destruct (Ascii.eqb c ","%char); [discriminate|].
  destruct (split_comma rest); discriminate.
Qed.

Lemma concat_split_comma str : String.concat "," (split_comma str) = str.
Proof.
  induction str as [|c rest IH]; [reflexivity|].
  pose proof (split_comma_nonempty rest) as Hne.
  cbn [split_comma].
  destruct (Ascii.eqb c ","%char) eqn:E.
  - apply Ascii.eqb_eq in E. subst c.
    destruct (split_comma rest) as [|piece pieces]; [contradiction|].
    rewrite <- IH. reflexivity.
  - destruct (split_comma rest) as [|piece pieces]; [contradiction|].
    rewrite <- IH. destruct pieces; reflexivity.
Qed.

Lemma split_comma_no_comma str :
  Forall (fun piece => has_comma piece = false) (split_comma str).
Proof.
  induction str as [|c rest IH]; simpl.
  - constructor; [reflexivity | constructor].
  - destruct (Ascii.eqb c ","%char) eqn:E.
    + constructor; [reflexivity | exact IH].
    + destruct (split_comma rest) as [|piece pieces].
      * constructor; [simpl; now rewrite E | constructor].
      * inversion IH as [|? ? Hp Hps]. subst.
        constructor; [simpl; now rewrite E | exact Hps].
Qed.

(** X12: the list of allowed origins is never empty. When the variable is
    set and not empty its value is cut at every comma and nowhere else:
    no origin holds a comma, and the origins put together again with commas
    give the value back, so blanks around a comma stay in the origins. *)
Theorem allowed_origins_split (env : option string) :
  ALLOWED_ORIGINS env <> [] /\
  forall value, env = Some value -> value <> EmptyString ->
    String.concat "," (ALLOWED_ORIGINS env) = value /\
    Forall (fun origin => has_comma origin = false) (ALLOWED_ORIGINS env).
Proof.
  split.
  - destruct env as [[|c rest]|]; try discriminate.
    apply split_comma_nonempty.
  - intros value -> Hne. destruct value as [|c rest]; [congruence|].
    unfold ALLOWED_ORIGINS. split.
    + apply concat_split_comma.
    + apply split_comma_no_comma.
Qed.

Lemma allowed_origins_split_witness :
  Some "https://a.example, https://b.example"
    = Some "https://a.example, https://b.example" /\
  ALLOWED_ORIGINS (Some "https://a.example, https://b.example")
    = ["https://a.example"; " https://b.example"] /\
  String.concat "," (ALLOWED_ORIGINS (Some "https://a.example, https://b.example"))
    = "https://a.example, https://b.example".
Proof.
  split; [reflexivity|]. split; [reflexivity|].
  apply (proj2 (allowed_origins_split
                  (Some "https://a.example, https://b.example"))
               "https://a.example, https://b.example" eq_refl).
  discriminate.
Defined.
